(** * keras_extensions: shape and masking overrides, and the backend [switch]

    A shallow embedding of [keras_extensions.py].  Tensors are modelled as
    the backends store them: a static shape and the elements in row-major
    order.  Operations that can raise in Python return a [result]. *)

From Stdlib Require Import String Ascii.
From Stdlib Require Import List Bool Arith ZArith Lia.
From Stdlib Require Import SpecFloat.
Import ListNotations.

Set Implicit Arguments.

(** ** Exceptions and the error monad *)

Inductive exn : Type :=
| IndexError    (* indexing an empty shape with [-1] *)
| ValueError    (* shapes that the backend primitive rejects *)
| ImportError.  (* [import m] for a package that is not installed *)

Inductive result (A : Type) : Type :=
| Ok (a : A)
| Raise (e : exn).

Arguments Ok {A} a.
Arguments Raise {A} e.

Definition bind {A B : Type} (r : result A) (k : A -> result B) : result B :=
  match r with
  | Ok a => k a
  | Raise e => Raise e
  end.

Declare Scope result_scope.
Delimit Scope result_scope with result.
Notation "x <- r ;; k" := (bind r (fun x => k))
  (at level 61, r at next level, right associativity) : result_scope.
Notation "r ;;; k" := (bind r (fun _ => k))
  (at level 61, right associativity) : result_scope.
Open Scope result_scope.

(** ** Shapes *)

(** A Keras shape tuple: each dimension is an integer or [None]
    (unknown until run time). *)
Definition dim : Type := option nat.
Definition kshape : Type := list dim.

(** A static tensor shape, all dimensions known. *)
Definition shape : Type := list nat.

Definition numel (s : shape) : nat := fold_right Nat.mul 1 s.

(** Python's [s[-1]] on a shape. *)
Definition last_dim (s : shape) : result nat :=
  match rev s with
  | [] => Raise IndexError
  | d :: _ => Ok d
  end.

(** Python's [s[:-1]]. *)
Definition init_dims (s : shape) : shape := removelast s.

Definition shape_eqb (s1 s2 : shape) : bool :=
  if list_eq_dec Nat.eq_dec s1 s2 then true else false.

(** Row-major offset of a multi-index, [None] when the index is out of
    range or of the wrong rank. *)
Fixpoint ravel (s : shape) (ix : list nat) : option nat :=
  match s, ix with
  | [], [] => Some 0
  | d :: s', i :: ix' =>
      if i <? d then
        match ravel s' ix' with
        | Some o => Some (i * numel s' + o)
        | None => None
        end
      else None
  | _, _ => None
  end.

(** ** Tensors *)

Record tensor (A : Type) : Type := Tensor {
  tshape : shape;
  tdata : list A
}.

Arguments Tensor {A} tshape tdata.

Definition wf {A : Type} (t : tensor A) : Prop :=
  length (tdata t) = numel (tshape t).

Definition rank {A : Type} (t : tensor A) : nat := length (tshape t).

(** [t[i, j, ...]] *)
Definition get {A : Type} (t : tensor A) (ix : list nat) : option A :=
  match ravel (tshape t) ix with
  | Some o => nth_error (tdata t) o
  | None => None
  end.

(** The [i]-th block of [k] consecutive elements. *)
Definition chunk {A : Type} (k i : nat) (l : list A) : list A :=
  firstn k (skipn (i * k) l).

(** ** Element types *)

(** IEEE binary32, as [tf.float32]. *)
Definition float32 : Type := spec_float.
Definition f32_prec : Z := 24.
Definition f32_emax : Z := 128.
Definition f32_zero : float32 := S754_zero false.
Definition f32_one : float32 := S754_finite false 8388608 (-23).
Definition f32_mul : float32 -> float32 -> float32 := SFmul f32_prec f32_emax.
Definition f32_add : float32 -> float32 -> float32 := SFadd f32_prec f32_emax.

(** A numeric element type with its zero, for [K.zeros_like]. *)
Class DType (A : Type) : Type := { dzero : A }.

#[export] Instance DType_float32 : DType float32 := { dzero := f32_zero }.
#[export] Instance DType_int : DType Z := { dzero := 0%Z }.

(** A tensor whose dtype is only known at run time: [switch] rebinds
    [cond] from a boolean tensor to a float one. *)
Inductive dtensor : Type :=
| BoolT (t : tensor bool)
| FloatT (t : tensor float32).

Definition dshape (c : dtensor) : shape :=
  match c with
  | BoolT t => tshape t
  | FloatT t => tshape t
  end.

(** ** The process environment *)

(** [backend] is what [K.backend()] returns; the package of the active
    backend was imported by Keras itself, other packages are importable
    when [installed]. *)
Record environment : Type := {
  backend : string;
  installed : string -> bool
}.

Definition K_backend (env : environment) : string := backend env.

(** [import pkg] inside a function body. *)
Definition import_module (env : environment) (pkg : string) : result unit :=
  if String.eqb pkg (backend env) || installed env pkg
  then Ok tt
  else Raise ImportError.

(** ** Backend primitives used by the module *)

Definition bool_to_f32 (b : bool) : float32 :=
  if b then f32_one else f32_zero.

Definition f32_to_bool (x : float32) : bool := negb (SFeqb x f32_zero).

(** [tf.cast(c, tf.float32)] *)
Definition tf_cast_float32 (c : dtensor) : tensor float32 :=
  match c with
  | BoolT t => Tensor (tshape t) (map bool_to_f32 (tdata t))
  | FloatT t => t
  end.

(** [tf.cast(c, dtype=tf.bool)] *)
Definition tf_cast_bool (c : dtensor) : tensor bool :=
  match c with
  | BoolT t => t
  | FloatT t => Tensor (tshape t) (map f32_to_bool (tdata t))
  end.

(** [tf.ones(s)] *)
Definition tf_ones (s : shape) : tensor float32 :=
  Tensor s (repeat f32_one (numel s)).

(** Entry [(i, k)] of the product of an [n x m] by an [m x f] matrix,
    both row-major. *)
Definition dot_entry (m f : nat) (xd yd : list float32) (i k : nat) : float32 :=
  fold_left
    (fun acc j =>
       f32_add acc (f32_mul (nth (i * m + j) xd f32_zero)
                            (nth (j * f + k) yd f32_zero)))
    (seq 0 m) f32_zero.

Definition matmul (n m f : nat) (xd yd : list float32) : list float32 :=
  flat_map (fun i => map (dot_entry m f xd yd i) (seq 0 f)) (seq 0 n).

(** [K.dot(x, y)] on the tensorflow backend, for a matrix [y]: [x] is
    reshaped to two dimensions, multiplied, and reshaped back.  The module
    only ever passes a matrix as [y]. *)
Definition K_dot (x y : tensor float32) : result (tensor float32) :=
  match tshape y with
  | [m; f] =>
      if 2 <=? rank x then
        d <- last_dim (tshape x) ;;
        if d =? m then
          let lead := init_dims (tshape x) in
          Ok (Tensor (lead ++ [f]) (matmul (numel lead) m f (tdata x) (tdata y)))
        else Raise ValueError
      else Raise ValueError
  | _ => Raise ValueError
  end.

(** Elementwise [c ? x : y] on the element lists. *)
Definition select {A : Type} (c : list bool) (x y : list A) : list A :=
  map (fun p : bool * (A * A) =>
         if fst p then fst (snd p) else snd (snd p))
      (combine c (combine x y)).

(** Every element repeated [f] times: a trailing axis of size one
    stretched to size [f]. *)
Definition stretch {A : Type} (f : nat) (l : list A) : list A :=
  flat_map (fun a => repeat a f) l.

(** [tf.where(c, x, y)]: [x] and [y] have the same shape; [c] has that
    shape too, or is a vector as long as their first dimension, selecting
    whole rows. *)
Definition tf_where {A : Type} (c : tensor bool) (x y : tensor A)
  : result (tensor A) :=
  if shape_eqb (tshape x) (tshape y) then
    if shape_eqb (tshape c) (tshape x) then
      Ok (Tensor (tshape x) (select (tdata c) (tdata x) (tdata y)))
    else
      match tshape c, tshape x with
      | [n], n' :: rest =>
          if n =? n' then
            Ok (Tensor (tshape x)
                  (select (stretch (numel rest) (tdata c)) (tdata x) (tdata y)))
          else Raise ValueError
      | _, _ => Raise ValueError
      end
  else Raise ValueError.

(** Broadcast shape of two shapes, innermost dimension first. *)
Fixpoint bshape_rev (r1 r2 : list nat) : result (list nat) :=
  match r1, r2 with
  | [], r => Ok r
  | r, [] => Ok r
  | a :: r1', b :: r2' =>
      rest <- bshape_rev r1' r2' ;;
      if a =? b then Ok (a :: rest)
      else if a =? 1 then Ok (b :: rest)
      else if b =? 1 then Ok (a :: rest)
      else Raise ValueError
  end.

Definition broadcast_shapes (s1 s2 : shape) : result shape :=
  r <- bshape_rev (rev s1) (rev s2) ;; Ok (rev r).

(** Elements of a tensor of shape [ss] laid out at shape [ts] (same rank),
    dimensions of size one being repeated. *)
Fixpoint bcast {A : Type} (ss ts : shape) (d : list A) : list A :=
  match ss, ts with
  | s :: ss', t :: ts' =>
      if s =? t
      then flat_map (fun i => bcast ss' ts' (chunk (numel ss') i d)) (seq 0 t)
      else flat_map (fun _ => bcast ss' ts' d) (seq 0 t)
  | _, _ => d
  end.

Definition broadcast_to {A : Type} (s target : shape) (d : list A) : list A :=
  bcast (repeat 1 (length target - length s) ++ s) target d.

(** [T.switch(c, x, y)]: elementwise select with broadcasting.  An axis
    of static size one is taken as broadcastable, as the axis added by
    [K.expand_dims] is.  Theano types an axis as broadcastable or not; a
    size-one axis that is not typed so (a placeholder's) is refused by
    theano, so this model stands for [T.switch] on arguments of equal
    shapes and on a condition that comes from [K.expand_dims]. *)
Definition T_switch {A : Type} (c : tensor bool) (x y : tensor A)
  : result (tensor A) :=
  s1 <- broadcast_shapes (tshape c) (tshape x) ;;
  s <- broadcast_shapes s1 (tshape y) ;;
  Ok (Tensor s (select (broadcast_to (tshape c) s (tdata c))
                       (broadcast_to (tshape x) s (tdata x))
                       (broadcast_to (tshape y) s (tdata y)))).

(** [K.any(m, axis=-1)].  On a mask of rank zero the backends raise
    exceptions of different kinds; the kind raised here is not relied
    on. *)
Definition K_any (m : tensor bool) : result (tensor bool) :=
  k <- last_dim (tshape m) ;;
  let s := init_dims (tshape m) in
  Ok (Tensor s (map (fun i => existsb (fun b => b) (chunk k i (tdata m)))
                    (seq 0 (numel s)))).

(** [K.expand_dims(x)]: a new trailing axis of size one. *)
Definition K_expand_dims {A : Type} (x : tensor A) : tensor A :=
  Tensor (tshape x ++ [1]) (tdata x).

(** [K.zeros_like(x)] *)
Definition K_zeros_like {A : Type} `{DType A} (x : tensor A) : tensor A :=
  Tensor (tshape x) (map (fun _ => dzero) (tdata x)).

(** ** The module's functions *)

(** [switch(cond, then_tensor, else_tensor)] *)
Definition switch {A : Type} (env : environment)
  (cond : tensor bool) (then_tensor else_tensor : tensor A)
  : result (tensor A) :=
  if String.eqb (K_backend env) "tensorflow" then
    import_module env "tensorflow" ;;;
    let cond_shape := tshape cond in
    let input_shape := tshape then_tensor in
    c <- last_dim cond_shape ;;
    i <- last_dim input_shape ;;
    cond' <- (if negb (c =? i) && (c =? 1) then
                d <- K_dot (tf_cast_float32 (BoolT cond)) (tf_ones [1; i]) ;;
                Ok (FloatT d)
              else Ok (BoolT cond)) ;;
    tf_where (tf_cast_bool cond') then_tensor else_tensor
  else
    import_module env "theano" ;;;
    T_switch cond then_tensor else_tensor.

Module AnyShapeEmbedding.

Record t : Type := { input_dim : nat; output_dim : nat }.

Definition get_output_shape_for (self : t) (input_shape : kshape) : kshape :=
  input_shape ++ [Some (output_dim self)].

End AnyShapeEmbedding.

Module TimeDistributedRNN.

(** The wrapper holds the layer it distributes over time. *)
Record t : Type := { layer : string }.

Definition compute_mask {A : Type} (self : t) (x : tensor A)
  (input_mask : option (tensor bool)) : result (option (tensor bool)) :=
  match input_mask with
  | None => Ok None
  | Some m => r <- K_any m ;; Ok (Some r)
  end.

End TimeDistributedRNN.

Module MaskedFlatten.

(** Keyword arguments accepted by the base layer constructor. *)
Record kwargs : Type := {
  kw_name : option string;
  kw_input_shape : option kshape
}.

Record t : Type := {
  name : option string;
  input_shape : option kshape;
  supports_masking : bool
}.

(** The base constructor [Flatten.__init__], given the keyword
    arguments: the base layer does not support masking. *)
Definition Flatten_init (kw : kwargs) : t :=
  {| name := kw_name kw;
     input_shape := kw_input_shape kw;
     supports_masking := false |}.

(** [Flatten.call(x)], that is [K.batch_flatten(x)]: the first dimension
    is kept, the others are collapsed into one, the elements stay in
    order.  This is what both backends do on a tensor of rank at least
    one that has elements; on a tensor without elements, or of rank zero,
    the backends differ from each other, and the shape computed here is
    not relied on. *)
Definition Flatten_call {A : Type} (x : tensor A) : result (tensor A) :=
  match tshape x with
  | [] => Raise ValueError
  | b :: rest => Ok (Tensor [b; numel rest] (tdata x))
  end.

Definition init (kw : kwargs) : t :=
  let self := Flatten_init kw in
  {| name := name self;
     input_shape := input_shape self;
     supports_masking := true |}.

Definition call {A : Type} `{DType A} (env : environment) (self : t)
  (inputs : tensor A) (mask : option (tensor bool)) : result (tensor A) :=
  inputs' <- match mask with
             | Some m => switch env (K_expand_dims m) inputs (K_zeros_like inputs)
             | None => Ok inputs
             end ;;
  Flatten_call inputs'.

Definition compute_mask {A : Type} (self : t)
  (inputs : tensor A) (mask : option (tensor bool)) : option (tensor bool) :=
  None.

(** The operations the framework invokes on a constructed layer.  The
    methods do not assign to [self], so each leaves the object as it
    was. *)
Inductive op (A : Type) : Type :=
| OpCall (inputs : tensor A) (mask : option (tensor bool))
| OpComputeMask (inputs : tensor A) (mask : option (tensor bool)).

Inductive outcome (A : Type) : Type :=
| OutTensor (r : result (tensor A))
| OutMask (m : option (tensor bool)).

Definition step {A : Type} `{DType A} (env : environment) (self : t)
  (o : op A) : t * outcome A :=
  match o with
  | OpCall inputs mask => (self, OutTensor (call env self inputs mask))
  | OpComputeMask inputs mask =>
      (self, OutMask A (compute_mask self inputs mask))
  end.

Definition run {A : Type} `{DType A} (env : environment) (self : t)
  (ops : list (op A)) : t :=
  fold_left (fun s o => fst (step env s o)) ops self.

End MaskedFlatten.

(** ** Sample values *)

Definition tf_env : environment :=
  {| backend := "tensorflow"; installed := fun _ => false |}.

Definition theano_env : environment :=
  {| backend := "theano"; installed := fun _ => false |}.

(** A per-position mask of shape (1, 2, 1) against two features. *)
Definition mask121 : tensor bool := Tensor [1; 2; 1] [true; false].
Definition then122 : tensor Z := Tensor [1; 2; 2] [1; 2; 3; 4]%Z.
Definition else122 : tensor Z := Tensor [1; 2; 2] [11; 12; 13; 14]%Z.

(** Tensors of one shared shape. *)
Definition cond2 : tensor bool := Tensor [2] [true; false].
Definition then2 : tensor Z := Tensor [2] [1; 5]%Z.
Definition else2 : tensor Z := Tensor [2] [2; 7]%Z.

(** Scalars: tensors of rank zero. *)
Definition scalar_cond : tensor bool := Tensor [] [true].
Definition scalar_then : tensor Z := Tensor [] [1%Z].
Definition scalar_else : tensor Z := Tensor [] [2%Z].

(** A mask of shape (1, 2, 2): one slot with a valid element, one slot all
    padding. *)
Definition mask122 : tensor bool :=
  Tensor [1; 2; 2] [false; true; false; false].

(** The example of the masked flatten: a mask of shape (2, 3), false at
    position (0, 1) only. *)
Definition mask23 : tensor bool :=
  Tensor [2; 3] [true; false; true; true; true; true].

Definition input234 : tensor Z :=
  Tensor [2; 3; 4] (map Z.of_nat (seq 1 24)).

Definition default_kwargs : MaskedFlatten.kwargs :=
  {| MaskedFlatten.kw_name := None; MaskedFlatten.kw_input_shape := None |}.

Definition lstm_wrapper : TimeDistributedRNN.t :=
  {| TimeDistributedRNN.layer := "lstm" |}.

Definition embedding50 : AnyShapeEmbedding.t :=
  {| AnyShapeEmbedding.input_dim := 1000; AnyShapeEmbedding.output_dim := 50 |}.

(** Masks of shape (1, 2): a mixed one, one that keeps everything and one
    that keeps nothing. *)
Definition mask12 : tensor bool := Tensor [1; 2] [true; false].
Definition keep12 : tensor bool := Tensor [1; 2] [true; true].
Definition drop12 : tensor bool := Tensor [1; 2] [false; false].

(** Two inputs of shape (2, 3) that differ in the second row only, and
    masks of shape (2,). *)
Definition input23 : tensor Z := Tensor [2; 3] [1; 2; 3; 4; 5; 6]%Z.
Definition input23' : tensor Z := Tensor [2; 3] [1; 2; 3; 40; 50; 60]%Z.
Definition keep2 : tensor bool := Tensor [2] [true; true].
Definition drop2 : tensor bool := Tensor [2] [false; false].

(** A mask whose last axis is empty. *)
Definition mask20 : tensor bool := Tensor [2; 0] [].

Definition cntk_env : environment :=
  {| backend := "cntk"; installed := fun _ => false |}.

(** A third backend selected, with the theano package installed too. *)
Definition cntk_with_theano_env : environment :=
  {| backend := "cntk"; installed := fun pkg => String.eqb pkg "theano" |}.

Arguments f32_add : simpl never.
Arguments f32_mul : simpl never.
Arguments f32_to_bool : simpl never.

(** * Facts about the list layout *)

Lemma flat_map_map_inner {A B C : Type} (g : A -> list B) (h : C -> A)
  (l : list C) :
  flat_map g (map h l) = flat_map (fun c => g (h c)) l.
Proof.
  induction l as [| c l IH]; simpl; [reflexivity | now rewrite IH].
Qed.

Section ListFacts.

Context {A B : Type}.

Lemma map_flat_map (C : Type) (h : B -> C) (g : A -> list B) (l : list A) :
  map h (flat_map g l) = flat_map (fun a => map h (g a)) l.
Proof.
  induction l as [| a l IH]; simpl; [reflexivity |].
  now rewrite map_app, IH.
Qed.

Lemma flat_map_ext_in (g h : A -> list B) (l : list A) :
  (forall a, In a l -> g a = h a) -> flat_map g l = flat_map h l.
Proof.
  induction l as [| a l IH]; intros E; simpl; [reflexivity |].
  rewrite (E a (or_introl eq_refl)), IH; [reflexivity |].
  intros a' Ha'. apply E. now right.
Qed.

(** Walking a list by position is walking the list. *)
Lemma flat_map_seq_nth (g : A -> list B) (l : list A) (d : A) :
  flat_map (fun i => g (nth i l d)) (seq 0 (length l)) = flat_map g l.
Proof.
  induction l as [| a l IH]; [reflexivity |].
  cbn [length seq flat_map nth]. f_equal.
  rewrite <- seq_shift, flat_map_map_inner. exact IH.
Qed.

(** Blocks of equal length [L]: element [r * L + k] is element [k] of
    block [r]. *)
Lemma nth_error_flat_map_block (g : A -> list B) (L : nat) (l : list A) :
  (forall a, In a l -> length (g a) = L) ->
  forall r k, k < L ->
    nth_error (flat_map g l) (r * L + k) =
    match nth_error l r with
    | Some a => nth_error (g a) k
    | None => None
    end.
Proof.
  induction l as [| a l IH]; intros HL r k Hk.
  - cbn [flat_map]. destruct (r * L + k); destruct r; reflexivity.
  - assert (Ha : length (g a) = L) by (apply HL; now left).
    destruct r as [| r]; cbn [flat_map nth_error].
    + rewrite nth_error_app1 by (simpl; lia). reflexivity.
    + rewrite nth_error_app2 by (simpl; lia).
      replace (S r * L + k - length (g a)) with (r * L + k) by (simpl; lia).
      apply IH; [| exact Hk]. intros a' Ha'. apply HL. now right.
Qed.

End ListFacts.

Lemma nth_error_stretch {A : Type} (f : nat) (l : list A) (r k : nat) :
  k < f -> nth_error (stretch f l) (r * f + k) = nth_error l r.
Proof.
  intros Hk. unfold stretch.
  rewrite (@nth_error_flat_map_block _ _ (fun a => repeat a f) f).
  - destruct (nth_error l r); [| reflexivity].
    now apply nth_error_repeat.
  - intros a _. apply repeat_length.
  - exact Hk.
Qed.

Lemma nth_error_select {A : Type} (c : list bool) (x y : list A) (i : nat) :
  nth_error (select c x y) i =
  match nth_error c i, nth_error x i, nth_error y i with
  | Some b, Some u, Some v => Some (if b then u else v)
  | _, _, _ => None
  end.
Proof.
  unfold select. revert x y i.
  induction c as [| b c IH]; intros x y i.
  - destruct i; reflexivity.
  - destruct x as [| u x].
    + destruct i; simpl; [reflexivity |].
      now destruct (nth_error c i).
    + destruct y as [| v y].
      * destruct i; simpl; [reflexivity |].
        destruct (nth_error c i); [| reflexivity].
        now destruct (nth_error x i).
      * destruct i; simpl; [reflexivity | apply IH].
Qed.

Lemma chunk_S {A : Type} (k i : nat) (l : list A) :
  chunk k (S i) l = chunk k i (skipn k l).
Proof.
  unfold chunk. rewrite skipn_skipn. do 2 f_equal. simpl. lia.
Qed.

(** The blocks of a list, put back together. *)
Lemma flat_map_chunk {A : Type} (k n : nat) (l : list A) :
  length l = n * k -> flat_map (fun i => chunk k i l) (seq 0 n) = l.
Proof.
  revert l. induction n as [| n IH]; intros l Hl.
  - destruct l; [reflexivity | discriminate].
  - cbn [seq flat_map]. rewrite <- seq_shift, flat_map_map_inner.
    rewrite (flat_map_ext _ (fun i => chunk k i (skipn k l)))
      by (intros i; apply chunk_S).
    rewrite IH by (rewrite length_skipn; simpl in Hl; lia).
    unfold chunk. cbn [Nat.mul skipn]. apply firstn_skipn.
Qed.

Lemma length_chunk {A : Type} (k i n : nat) (l : list A) :
  length l = n * k -> i < n -> length (chunk k i l) = k.
Proof.
  intros Hl Hi. unfold chunk. rewrite length_firstn, length_skipn. nia.
Qed.

Lemma nth_error_chunk {A : Type} (k i j : nat) (l : list A) :
  j < k -> nth_error (chunk k i l) j = nth_error l (i * k + j).
Proof.
  intros Hj. unfold chunk.
  rewrite nth_error_firstn.
  destruct (Nat.ltb_spec j k); [| lia].
  apply nth_error_skipn.
Qed.

(** * Shapes and offsets *)

Lemma numel_app (s1 s2 : shape) : numel (s1 ++ s2) = numel s1 * numel s2.
Proof.
  unfold numel. induction s1 as [| d s1 IH]; simpl; [lia |].
  rewrite IH. lia.
Qed.

Lemma numel_snoc (s : shape) (k : nat) : numel (s ++ [k]) = numel s * k.
Proof. rewrite numel_app. simpl. lia. Qed.

Lemma last_dim_snoc (s : shape) (k : nat) : last_dim (s ++ [k]) = Ok k.
Proof. unfold last_dim. now rewrite rev_unit. Qed.

Lemma init_dims_snoc (s : shape) (k : nat) : init_dims (s ++ [k]) = s.
Proof. apply removelast_last. Qed.

Lemma shape_eqb_refl (s : shape) : shape_eqb s s = true.
Proof. unfold shape_eqb. now destruct (list_eq_dec Nat.eq_dec s s). Qed.

Lemma ravel2 (b t i j : nat) :
  i < b -> j < t -> ravel [b; t] [i; j] = Some (i * t + j).
Proof.
  intros Hi Hj. cbn [ravel].
  destruct (Nat.ltb_spec i b); [| lia].
  destruct (Nat.ltb_spec j t); [| lia].
  f_equal. simpl. lia.
Qed.

Lemma ravel3 (b t f i j k : nat) :
  i < b -> j < t -> k < f ->
  ravel [b; t; f] [i; j; k] = Some ((i * t + j) * f + k).
Proof.
  intros Hi Hj Hk. cbn [ravel].
  destruct (Nat.ltb_spec i b); [| lia].
  destruct (Nat.ltb_spec j t); [| lia].
  destruct (Nat.ltb_spec k f); [| lia].
  f_equal. simpl. lia.
Qed.

(** * The broadcast of a mask on the tensorflow backend *)

Lemma stretch_1 {A : Type} (l : list A) : stretch 1 l = l.
Proof.
  unfold stretch. induction l as [| a l IH]; simpl; [reflexivity |].
  now f_equal.
Qed.

(** A boolean survives the cast to float, the product with one and the
    cast back. *)
Lemma f32_roundtrip (b : bool) :
  f32_to_bool (f32_add f32_zero (f32_mul (bool_to_f32 b) f32_one)) = b.
Proof. destruct b; vm_compute; reflexivity. Qed.

Lemma dot_entry_ones (f : nat) (cd : list bool) (i k : nat) :
  k < f ->
  dot_entry 1 f (map bool_to_f32 cd) (repeat f32_one (numel [1; f])) i k =
  f32_add f32_zero (f32_mul (bool_to_f32 (nth i cd false)) f32_one).
Proof.
  intros Hk. unfold dot_entry. cbn [seq fold_left].
  rewrite Nat.mul_1_r, Nat.add_0_r. cbn [Nat.mul Nat.add].
  change f32_zero with (bool_to_f32 false) at 2.
  rewrite map_nth. do 2 f_equal.
  apply nth_error_nth. apply nth_error_repeat. simpl. lia.
Qed.

Lemma broadcast_by_ones (f : nat) (cd : list bool) :
  map f32_to_bool
    (matmul (length cd) 1 f (map bool_to_f32 cd)
       (repeat f32_one (numel [1; f]))) =
  stretch f cd.
Proof.
  unfold matmul, stretch. rewrite map_flat_map.
  rewrite <- (flat_map_seq_nth (fun b => repeat b f) cd false).
  apply flat_map_ext_in. intros i _.
  rewrite map_map.
  rewrite (map_ext_in _ (fun _ => nth i cd false)).
  - now rewrite map_const, length_seq.
  - intros k Hk. apply in_seq in Hk.
    rewrite dot_entry_ones by lia. apply f32_roundtrip.
Qed.

(** * The two branches of [switch] *)

Lemma switch_tensorflow_branch {A : Type} (env : environment)
  (cond : tensor bool) (x y : tensor A) :
  K_backend env = "tensorflow"%string ->
  switch env cond x y =
  (c <- last_dim (tshape cond) ;;
   i <- last_dim (tshape x) ;;
   cond' <- (if negb (c =? i) && (c =? 1) then
               d <- K_dot (tf_cast_float32 (BoolT cond)) (tf_ones [1; i]) ;;
               Ok (FloatT d)
             else Ok (BoolT cond)) ;;
   tf_where (tf_cast_bool cond') x y).
Proof.
  intros Hb. unfold switch, import_module. unfold K_backend in *.
  rewrite Hb. reflexivity.
Qed.

Lemma switch_theano_branch {A : Type} (env : environment)
  (cond : tensor bool) (x y : tensor A) :
  K_backend env <> "tensorflow"%string ->
  import_module env "theano" = Ok tt ->
  switch env cond x y = T_switch cond x y.
Proof.
  intros Hb Hi. unfold switch.
  destruct (String.eqb_spec (K_backend env) "tensorflow"); [contradiction |].
  now rewrite Hi.
Qed.

Lemma tf_where_same_shape {A : Type} (c : tensor bool) (x y : tensor A) :
  tshape c = tshape x -> tshape y = tshape x ->
  tf_where c x y = Ok (Tensor (tshape x) (select (tdata c) (tdata x) (tdata y))).
Proof.
  intros Hc Hy. unfold tf_where.
  now rewrite Hc, Hy, !shape_eqb_refl.
Qed.

(** A mask with a trailing axis of size one against tensors with [f]
    features, on tensorflow. *)
Lemma switch_tensorflow_trailing {A : Type} (env : environment)
  (cond : tensor bool) (x y : tensor A) (s : shape) (f : nat) :
  K_backend env = "tensorflow"%string ->
  s <> [] ->
  tshape cond = s ++ [1] -> tshape x = s ++ [f] -> tshape y = s ++ [f] ->
  wf cond ->
  switch env cond x y =
  Ok (Tensor (s ++ [f]) (select (stretch f (tdata cond)) (tdata x) (tdata y))).
Proof.
  intros Hb Hs Hc Hx Hy Wc.
  rewrite switch_tensorflow_branch by exact Hb.
  rewrite Hc, Hx, !last_dim_snoc. cbn [bind].
  destruct (Nat.eqb_spec 1 f) as [<- | Hf]; cbn [negb andb bind].
  - cbn [tf_cast_bool]. rewrite tf_where_same_shape by congruence.
    now rewrite Hx, stretch_1.
  - unfold K_dot. cbn [tf_ones tshape tf_cast_float32 tdata].
    unfold rank. cbn [tshape]. rewrite Hc, length_app.
    destruct (Nat.leb_spec 2 (length s + length [1])) as [_ | Hr];
      [| destruct s; [contradiction | simpl in Hr; lia]].
    rewrite last_dim_snoc. cbn [bind Nat.eqb]. rewrite init_dims_snoc.
    cbn [bind tf_cast_bool tshape tdata].
    rewrite tf_where_same_shape by (cbn [tshape]; congruence).
    replace (numel s) with (length (tdata cond))
      by (unfold wf in Wc; rewrite Wc, Hc, numel_snoc; lia).
    now rewrite broadcast_by_ones, Hx.
Qed.

(** * Broadcasting on the theano backend *)

Lemma bshape_rev_same (r : list nat) : bshape_rev r r = Ok r.
Proof.
  induction r as [| a r IH]; [reflexivity |].
  cbn [bshape_rev]. rewrite IH. cbn [bind]. now rewrite Nat.eqb_refl.
Qed.

Lemma broadcast_shapes_same (s : shape) : broadcast_shapes s s = Ok s.
Proof.
  unfold broadcast_shapes. rewrite bshape_rev_same. cbn [bind].
  now rewrite rev_involutive.
Qed.

Lemma broadcast_shapes_trailing (s : shape) (f : nat) :
  broadcast_shapes (s ++ [1]) (s ++ [f]) = Ok (s ++ [f]).
Proof.
  unfold broadcast_shapes. rewrite !rev_unit. cbn [bshape_rev].
  rewrite bshape_rev_same. cbn [bind].
  destruct (Nat.eqb_spec 1 f) as [<- | _]; cbn [Nat.eqb bind rev];
    now rewrite rev_involutive.
Qed.

Lemma bcast_same {A : Type} (s : shape) (d : list A) :
  length d = numel s -> bcast s s d = d.
Proof.
  revert d. induction s as [| n s IH]; intros d Hd; [reflexivity |].
  cbn [bcast]. rewrite Nat.eqb_refl.
  rewrite (flat_map_ext_in _ (fun i => chunk (numel s) i d)).
  - apply flat_map_chunk. exact Hd.
  - intros i Hi. apply in_seq in Hi. apply IH.
    apply length_chunk with (n := n); [exact Hd | lia].
Qed.

Lemma stretch_flat_map {A C : Type} (f : nat) (g : C -> list A) (l : list C) :
  flat_map (fun i => stretch f (g i)) l = stretch f (flat_map g l).
Proof.
  unfold stretch. induction l as [| c l IH]; [reflexivity |].
  cbn [flat_map]. now rewrite flat_map_app, IH.
Qed.

Lemma bcast_trailing {A : Type} (s : shape) (f : nat) (d : list A) :
  length d = numel s -> bcast (s ++ [1]) (s ++ [f]) d = stretch f d.
Proof.
  revert d. induction s as [| n s IH]; intros d Hd.
  - destruct d as [| a [| a' d]]; try discriminate.
    cbn [app bcast numel fold_right chunk Nat.mul firstn skipn].
    unfold stretch. cbn [flat_map]. rewrite app_nil_r.
    destruct (Nat.eqb_spec 1 f) as [<- | _]; [reflexivity |].
    rewrite flat_map_concat_map, map_const, length_seq.
    clear. induction f as [| f IH]; [reflexivity |].
    cbn [repeat concat app]. now rewrite IH.
  - cbn [app bcast]. rewrite Nat.eqb_refl, numel_snoc, Nat.mul_1_r.
    rewrite (flat_map_ext_in _ (fun i => stretch f (chunk (numel s) i d))).
    + rewrite stretch_flat_map. now rewrite flat_map_chunk.
    + intros i Hi. apply in_seq in Hi. apply IH.
      apply length_chunk with (n := n); [exact Hd | lia].
Qed.

Lemma broadcast_to_same_rank {A : Type} (s t : shape) (d : list A) :
  length s = length t -> broadcast_to s t d = bcast s t d.
Proof.
  intros H. unfold broadcast_to. now rewrite H, Nat.sub_diag.
Qed.

Lemma T_switch_same_shape {A : Type} (c : tensor bool) (x y : tensor A) :
  tshape c = tshape x -> tshape y = tshape x ->
  wf c -> wf x -> wf y ->
  T_switch c x y = Ok (Tensor (tshape x) (select (tdata c) (tdata x) (tdata y))).
Proof.
  unfold wf. intros Hc Hy Wc Wx Wy. unfold T_switch.
  rewrite Hc, Hy, broadcast_shapes_same. cbn [bind].
  rewrite broadcast_shapes_same. cbn [bind].
  rewrite !broadcast_to_same_rank by reflexivity.
  rewrite !bcast_same by congruence. reflexivity.
Qed.

Lemma T_switch_trailing {A : Type} (c : tensor bool) (x y : tensor A)
  (s : shape) (f : nat) :
  tshape c = s ++ [1] -> tshape x = s ++ [f] -> tshape y = s ++ [f] ->
  wf c -> wf x -> wf y ->
  T_switch c x y =
  Ok (Tensor (s ++ [f]) (select (stretch f (tdata c)) (tdata x) (tdata y))).
Proof.
  unfold wf. intros Hc Hx Hy Wc Wx Wy. unfold T_switch.
  rewrite Hc, Hx, Hy, broadcast_shapes_trailing. cbn [bind].
  rewrite broadcast_shapes_same. cbn [bind].
  rewrite !broadcast_to_same_rank by (rewrite ?length_app; reflexivity).
  rewrite bcast_trailing
    by (rewrite Wc, Hc, numel_snoc; lia).
  rewrite !bcast_same by congruence. reflexivity.
Qed.

(** * The claims *)

Lemma K_dot_mask_ones (cond : tensor bool) (s : shape) (f : nat) :
  s <> [] -> tshape cond = s ++ [1] -> wf cond ->
  K_dot (tf_cast_float32 (BoolT cond)) (tf_ones [1; f]) =
  Ok (Tensor (s ++ [f])
        (matmul (length (tdata cond)) 1 f (map bool_to_f32 (tdata cond))
           (repeat f32_one (numel [1; f])))).
Proof.
  intros Hs Hc Wc. unfold K_dot.
  cbn [tf_ones tshape tf_cast_float32 tdata].
  unfold rank. cbn [tshape]. rewrite Hc, length_app.
  destruct (Nat.leb_spec 2 (length s + length [1])) as [_ | Hr];
    [| destruct s; [contradiction | simpl in Hr; lia]].
  rewrite last_dim_snoc. cbn [bind Nat.eqb]. rewrite init_dims_snoc.
  replace (numel s) with (length (tdata cond))
    by (unfold wf in Wc; rewrite Wc, Hc, numel_snoc; lia).
  reflexivity.
Qed.

Lemma offset_bound (n f r k : nat) : r < n -> k < f -> r * f + k < n * f.
Proof.
  intros Hr Hk. apply Nat.lt_le_trans with (S r * f); [simpl; lia |].
  apply Nat.mul_le_mono_r. lia.
Qed.

Lemma get_in_range {A : Type} (t : tensor A) (o : nat) :
  wf t -> o < numel (tshape t) -> exists a, nth_error (tdata t) o = Some a.
Proof.
  unfold wf. intros W Ho.
  destruct (nth_error (tdata t) o) as [a |] eqn:E; [now exists a |].
  apply nth_error_None in E. lia.
Qed.

(** C1: on the tensorflow backend, a condition of shape (b, t, 1) against
    tensors of shape (b, t, f), f > 1, is first multiplied by a matrix of
    ones with f columns, which repeats each mask value along the trailing
    axis; the result of [switch] is the select by the boolean cast of that
    product, has shape (b, t, f), and at every (i, j, k) holds
    then_tensor[i, j, k] when cond[i, j, 0] is true and else_tensor[i, j, k]
    otherwise.  When the trailing dimensions of the condition and of
    then_tensor are equal the condition goes to the select as it is. *)
Theorem switch_tensorflow_broadcast {A : Type} (env : environment)
  (cond : tensor bool) (then_tensor else_tensor : tensor A) (b t f : nat) :
  K_backend env = "tensorflow"%string ->
  tshape cond = [b; t; 1] ->
  tshape then_tensor = [b; t; f] ->
  tshape else_tensor = [b; t; f] ->
  wf cond -> wf then_tensor -> wf else_tensor ->
  1 < f ->
  (exists d r,
     K_dot (tf_cast_float32 (BoolT cond)) (tf_ones [1; f]) = Ok d /\
     tshape d = [b; t; f] /\
     (forall i j k, i < b -> j < t -> k < f ->
        get (tf_cast_bool (FloatT d)) [i; j; k] = get cond [i; j; 0]) /\
     switch env cond then_tensor else_tensor =
       tf_where (tf_cast_bool (FloatT d)) then_tensor else_tensor /\
     switch env cond then_tensor else_tensor = Ok r /\
     tshape r = [b; t; f] /\
     forall i j k, i < b -> j < t -> k < f ->
       exists c u v,
         get cond [i; j; 0] = Some c /\
         get then_tensor [i; j; k] = Some u /\
         get else_tensor [i; j; k] = Some v /\
         get r [i; j; k] = Some (if c then u else v)) /\
  (forall (cond' : tensor bool) (x y : tensor A) (n : nat),
     last_dim (tshape cond') = Ok n -> last_dim (tshape x) = Ok n ->
     switch env cond' x y = tf_where cond' x y).
Proof.
  intros Hb Hc Hx Hy Wc Wx Wy Hf. split.
  - assert (Hs : [b; t] <> []) by discriminate.
    pose proof (@K_dot_mask_ones cond [b; t] f Hs Hc Wc) as Hd.
    pose proof (@switch_tensorflow_trailing A env cond then_tensor
                  else_tensor [b; t] f Hb Hs Hc Hx Hy Wc) as Hsw.
    cbn [app] in Hd, Hsw.
    eexists. eexists. split; [exact Hd |]. split; [reflexivity |].
    assert (Hcast : forall i j k, i < b -> j < t -> k < f ->
      get (tf_cast_bool (FloatT
        (Tensor [b; t; f]
           (matmul (length (tdata cond)) 1 f (map bool_to_f32 (tdata cond))
              (repeat f32_one (numel [1; f])))))) [i; j; k] =
      get cond [i; j; 0]).
    { intros i j k Hi Hj Hk. unfold get. cbn [tf_cast_bool tshape tdata].
      rewrite Hc, !ravel3 by lia.
      rewrite broadcast_by_ones, nth_error_stretch by exact Hk.
      f_equal. lia. }
    split; [exact Hcast |]. split.
    + rewrite switch_tensorflow_branch by exact Hb.
      rewrite Hc, Hx. cbn [last_dim rev app bind].
      destruct (Nat.eqb_spec 1 f); [lia |].
      cbn [negb andb Nat.eqb bind]. rewrite Hd. reflexivity.
    + split; [exact Hsw |]. split; [reflexivity |].
      intros i j k Hi Hj Hk.
      assert (Hr : i * t + j < b * t) by (apply offset_bound; lia).
      assert (Ho : (i * t + j) * f + k < b * t * f)
        by (apply offset_bound; lia).
      destruct (@get_in_range _ cond (i * t + j) Wc) as [c Ec];
        [rewrite Hc; simpl; lia |].
      destruct (@get_in_range _ then_tensor ((i * t + j) * f + k) Wx)
        as [u Eu]; [rewrite Hx; simpl; lia |].
      destruct (@get_in_range _ else_tensor ((i * t + j) * f + k) Wy)
        as [v Ev]; [rewrite Hy; simpl; lia |].
      exists c, u, v. unfold get. cbn [tshape tdata].
      rewrite Hc, Hx, Hy, !ravel3 by lia.
      rewrite Nat.mul_1_r, Nat.add_0_r.
      rewrite nth_error_select, nth_error_stretch by exact Hk.
      now rewrite Ec, Eu, Ev.
  - intros cond' x y n Hc' Hx'.
    rewrite switch_tensorflow_branch by exact Hb.
    rewrite Hc', Hx'. cbn [bind]. rewrite Nat.eqb_refl. reflexivity.
Qed.

Lemma switch_tensorflow_broadcast_witness :
  exists r,
    switch tf_env mask121 then122 else122 = Ok r /\ tshape r = [1; 2; 2].
Proof.
  destruct (@switch_tensorflow_broadcast Z tf_env mask121 then122 else122
              1 2 2 eq_refl eq_refl eq_refl eq_refl eq_refl eq_refl eq_refl
              (le_n 2))
    as [[d [r [_ [_ [_ [_ [Hr [Hs _]]]]]]]] _].
  exists r. split; [exact Hr | exact Hs].
Defined.

(** C2, as stated, fails on scalars: the tensorflow branch indexes the
    empty shape with [-1] and raises, the theano branch selects. *)
Lemma switch_backends_differ_on_scalars :
  tshape scalar_cond = tshape scalar_then /\
  tshape scalar_else = tshape scalar_then /\
  wf scalar_cond /\ wf scalar_then /\ wf scalar_else /\
  switch tf_env scalar_cond scalar_then scalar_else = Raise IndexError /\
  switch theano_env scalar_cond scalar_then scalar_else
    = Ok (Tensor [] [1%Z]).
Proof. repeat split. Qed.

(** C2 (amended): for a boolean cond and tensors then_tensor, else_tensor
    of one shared shape of rank at least one, [switch] returns the same
    elementwise select on the tensorflow branch as on the theano branch,
    and the theano branch is the native [T.switch] with nothing done to
    cond before it. *)
Theorem switch_backends_agree {A : Type} (env_tf env_th : environment)
  (cond : tensor bool) (then_tensor else_tensor : tensor A) :
  K_backend env_tf = "tensorflow"%string ->
  K_backend env_th = "theano"%string ->
  tshape cond = tshape then_tensor ->
  tshape else_tensor = tshape then_tensor ->
  wf cond -> wf then_tensor -> wf else_tensor ->
  1 <= rank then_tensor ->
  switch env_tf cond then_tensor else_tensor =
    switch env_th cond then_tensor else_tensor /\
  switch env_th cond then_tensor else_tensor =
    T_switch cond then_tensor else_tensor /\
  switch env_tf cond then_tensor else_tensor =
    tf_where cond then_tensor else_tensor /\
  switch env_tf cond then_tensor else_tensor =
    Ok (Tensor (tshape then_tensor)
          (select (tdata cond) (tdata then_tensor) (tdata else_tensor))).
Proof.
  intros Htf Hth Hc Hy Wc Wx Wy Hr.
  assert (Etf : switch env_tf cond then_tensor else_tensor =
                tf_where cond then_tensor else_tensor).
  { rewrite switch_tensorflow_branch by exact Htf. rewrite Hc.
    unfold rank in Hr.
    destruct (tshape then_tensor) as [| d0 s0] using rev_ind;
      [simpl in Hr; lia |].
    rewrite last_dim_snoc. cbn [bind]. now rewrite Nat.eqb_refl. }
  assert (Eth : switch env_th cond then_tensor else_tensor =
                T_switch cond then_tensor else_tensor).
  { apply switch_theano_branch.
    - rewrite Hth. discriminate.
    - unfold import_module. unfold K_backend in Hth. now rewrite Hth. }
  rewrite Eth, Etf.
  rewrite T_switch_same_shape, tf_where_same_shape by assumption.
  repeat split.
Qed.

Lemma switch_backends_agree_witness :
  switch tf_env cond2 then2 else2 = switch theano_env cond2 then2 else2.
Proof.
  apply (@switch_backends_agree Z tf_env theano_env cond2 then2 else2
           eq_refl eq_refl eq_refl eq_refl eq_refl eq_refl eq_refl (le_n 1)).
Defined.

(** C7, as stated, fails when a third backend is selected and the theano
    package is installed as well: nothing is raised, the call is delegated
    to theano's select. *)
Lemma switch_third_backend_with_theano :
  K_backend cntk_with_theano_env <> "tensorflow"%string /\
  K_backend cntk_with_theano_env <> "theano"%string /\
  switch cntk_with_theano_env cond2 then2 else2 = Ok (Tensor [2] [1; 7]%Z).
Proof. repeat split; discriminate. Qed.

(** C7 (amended): [switch] dispatches on the backend identifier alone:
    "tensorflow" takes the tensorflow branch and every other identifier
    the theano branch, without validation.  With a third backend selected
    the call fails with an import error, raised by the import of theano,
    when the theano package is not installed, and is otherwise delegated to
    theano's select. *)
Theorem switch_third_backend {A : Type} (env : environment)
  (cond : tensor bool) (then_tensor else_tensor : tensor A) :
  K_backend env <> "tensorflow"%string ->
  K_backend env <> "theano"%string ->
  switch env cond then_tensor else_tensor =
    (if installed env "theano"
     then T_switch cond then_tensor else_tensor
     else Raise ImportError) /\
  (forall env' : environment,
     switch env' cond then_tensor else_tensor =
     if String.eqb (K_backend env') "tensorflow" then
       c <- last_dim (tshape cond) ;;
       i <- last_dim (tshape then_tensor) ;;
       cond' <- (if negb (c =? i) && (c =? 1) then
                   d <- K_dot (tf_cast_float32 (BoolT cond)) (tf_ones [1; i]) ;;
                   Ok (FloatT d)
                 else Ok (BoolT cond)) ;;
       tf_where (tf_cast_bool cond') then_tensor else_tensor
     else
       import_module env' "theano" ;;;
       T_switch cond then_tensor else_tensor).
Proof.
  intros Htf Hth. split.
  - unfold switch, import_module.
    destruct (String.eqb_spec (K_backend env) "tensorflow"); [contradiction |].
    unfold K_backend in Hth.
    destruct (String.eqb_spec "theano" (backend env)) as [E |_];
      [symmetry in E; contradiction |].
    cbn [orb]. now destruct (installed env "theano").
  - intros env'.
    destruct (String.eqb_spec (K_backend env') "tensorflow") as [E | E].
    + now apply switch_tensorflow_branch.
    + unfold switch.
      now destruct (String.eqb_spec (K_backend env') "tensorflow").
Qed.

Lemma switch_third_backend_witness :
  switch cntk_env cond2 then2 else2 = Raise ImportError.
Proof.
  apply (proj1 (@switch_third_backend Z cntk_env cond2 then2 else2
                  ltac:(discriminate) ltac:(discriminate))).
Defined.

(** The reduction of [K.any] at a flat position of the output. *)
Lemma K_any_snoc (m : tensor bool) (s : shape) (k : nat) :
  tshape m = s ++ [k] ->
  K_any m =
  Ok (Tensor s (map (fun i => existsb (fun b => b) (chunk k i (tdata m)))
                    (seq 0 (numel s)))).
Proof.
  intros Hm. unfold K_any.
  now rewrite Hm, last_dim_snoc, init_dims_snoc.
Qed.

Lemma existsb_chunk (k r : nat) (l : list bool) :
  existsb (fun b => b) (chunk k r l) = true <->
  exists j, j < k /\ nth_error l (r * k + j) = Some true.
Proof.
  rewrite existsb_exists. split.
  - intros [b [Hin Hb]]. subst b.
    apply In_nth_error in Hin. destruct Hin as [j Hj].
    assert (Hlt : j < k).
    { assert (Hlen : j < length (chunk k r l))
        by (apply nth_error_Some; congruence).
      unfold chunk in Hlen. rewrite length_firstn in Hlen. lia. }
    exists j. split; [exact Hlt |].
    now rewrite <- nth_error_chunk.
  - intros [j [Hj E]]. exists true. split; [| reflexivity].
    apply nth_error_In with (n := j). now rewrite nth_error_chunk.
Qed.

(** C3: [compute_mask] returns None for the mask None; for a mask of shape
    (batch, time, k) it returns the mask of shape (batch, time) that is
    true at (i, j) exactly when some input_mask[i, j, l] is true, hence
    false where all k elements are false. *)
Theorem compute_mask_any_last_axis {A : Type} (self : TimeDistributedRNN.t)
  (x : tensor A) (input_mask : tensor bool) (batch time k : nat) :
  tshape input_mask = [batch; time; k] ->
  wf input_mask ->
  TimeDistributedRNN.compute_mask self x None = Ok None /\
  exists r,
    TimeDistributedRNN.compute_mask self x (Some input_mask) = Ok (Some r) /\
    K_any input_mask = Ok r /\
    tshape r = [batch; time] /\
    forall i j, i < batch -> j < time ->
      exists v,
        get r [i; j] = Some v /\
        (v = true <->
         exists l, l < k /\ get input_mask [i; j; l] = Some true) /\
        ((forall l, l < k -> get input_mask [i; j; l] = Some false) ->
         v = false).
Proof.
  intros Hm Wm. split; [reflexivity |].
  pose proof (@K_any_snoc input_mask [batch; time] k Hm) as HK.
  eexists. unfold TimeDistributedRNN.compute_mask. rewrite HK.
  cbn [bind]. split; [reflexivity |]. split; [reflexivity |].
  split; [reflexivity |].
  intros i j Hi Hj.
  assert (Hr : i * time + j < batch * time) by (apply offset_bound; lia).
  exists (existsb (fun b => b) (chunk k (i * time + j) (tdata input_mask))).
  assert (Hiff :
    existsb (fun b => b) (chunk k (i * time + j) (tdata input_mask)) = true <->
    exists l, l < k /\ get input_mask [i; j; l] = Some true).
  { rewrite existsb_chunk. unfold get. rewrite Hm.
    split; intros [l [Hl E]]; exists l; (split; [exact Hl |]).
    - now rewrite ravel3 by lia.
    - now rewrite ravel3 in E by lia. }
  split; [| split].
  - unfold get. cbn [tshape tdata]. rewrite ravel2 by lia.
    rewrite nth_error_map, nth_error_seq.
    destruct (Nat.ltb_spec (i * time + j) (numel [batch; time]));
      [reflexivity | simpl in *; lia].
  - exact Hiff.
  - intros Hall.
    destruct (existsb (fun b => b) (chunk k (i * time + j) (tdata input_mask)))
      eqn:E; [| reflexivity].
    destruct (proj1 Hiff eq_refl) as [l [Hl E']].
    rewrite (Hall l Hl) in E'. discriminate.
Qed.

Lemma compute_mask_any_last_axis_witness :
  TimeDistributedRNN.compute_mask lstm_wrapper input234 (Some mask122) =
  Ok (Some (Tensor [1; 2] [true; false])).
Proof.
  destruct (@compute_mask_any_last_axis Z lstm_wrapper input234 mask122 1 2 2
              eq_refl eq_refl) as [_ [r [Hr [HK _]]]].
  rewrite Hr. injection HK as <-. reflexivity.
Defined.

(** On either branch a mask with a trailing axis of size one selects
    whole feature vectors. *)
Lemma switch_trailing_mask {A : Type} (env : environment)
  (cond : tensor bool) (x y : tensor A) (s : shape) (f : nat) :
  K_backend env = "tensorflow"%string \/ import_module env "theano" = Ok tt ->
  s <> [] ->
  tshape cond = s ++ [1] -> tshape x = s ++ [f] -> tshape y = s ++ [f] ->
  wf cond -> wf x -> wf y ->
  switch env cond x y =
  Ok (Tensor (s ++ [f]) (select (stretch f (tdata cond)) (tdata x) (tdata y))).
Proof.
  intros Henv Hs Hc Hx Hy Wc Wx Wy.
  destruct (String.eqb_spec (K_backend env) "tensorflow") as [E | E].
  - now apply switch_tensorflow_trailing.
  - destruct Henv as [Henv | Henv]; [contradiction |].
    rewrite switch_theano_branch by assumption.
    now apply T_switch_trailing.
Qed.

Lemma wf_expand_dims {A : Type} (x : tensor A) : wf x -> wf (K_expand_dims x).
Proof.
  unfold wf, K_expand_dims. cbn [tshape tdata]. intros W.
  rewrite numel_snoc. lia.
Qed.

Lemma wf_zeros_like {A : Type} `{DType A} (x : tensor A) :
  wf x -> wf (K_zeros_like x).
Proof.
  unfold wf, K_zeros_like. cbn [tshape tdata]. intros W.
  now rewrite length_map.
Qed.

Lemma nth_error_zeros {A : Type} `{DType A} (l : list A) (o : nat) (a : A) :
  nth_error l o = Some a -> nth_error (map (fun _ => dzero) l) o = Some dzero.
Proof. intros E. now rewrite nth_error_map, E. Qed.

(** C4: without a mask the input goes to the base flatten as it is; with a
    mask of shape (b, t) over an input of shape (b, t, f) the mask gets a
    trailing axis of size one, the select puts zero at every element of a
    position where the mask is false and keeps the element where it is
    true, and the outcome is flattened to (b, t * f); the tensors have
    elements (b, t and f are positive).  For an input of shape (2, 3, 4)
    and the mask false at (0, 1) only, elements 4 to 7 of the output are
    zero and all others are the input's. *)
Theorem masked_flatten_call {A : Type} `{DType A} (env : environment)
  (self : MaskedFlatten.t) (inputs : tensor A) (mask : tensor bool)
  (b t f : nat) :
  K_backend env = "tensorflow"%string \/ import_module env "theano" = Ok tt ->
  tshape mask = [b; t] ->
  tshape inputs = [b; t; f] ->
  wf mask -> wf inputs ->
  0 < b -> 0 < t -> 0 < f ->
  MaskedFlatten.call env self inputs None = MaskedFlatten.Flatten_call inputs /\
  (exists masked out,
     tshape (K_expand_dims mask) = [b; t; 1] /\
     switch env (K_expand_dims mask) inputs (K_zeros_like inputs) = Ok masked /\
     MaskedFlatten.Flatten_call masked = Ok out /\
     MaskedFlatten.call env self inputs (Some mask) = Ok out /\
     tshape out = [b; t * f] /\
     forall i j k, i < b -> j < t -> k < f ->
       exists (m : bool) (a : A),
         get mask [i; j] = Some m /\
         get inputs [i; j; k] = Some a /\
         get out [i; j * f + k] = Some (if m then a else dzero)) /\
  (forall d : list A, length d = 24 ->
     MaskedFlatten.call env self (Tensor [2; 3; 4] d) (Some mask23) =
     Ok (Tensor [2; 12] (firstn 4 d ++ repeat dzero 4 ++ skipn 8 d))).
Proof.
  intros Henv Hm Hx Wm Wx _ _ _.
  assert (Hgen : forall (x : tensor A) (m : tensor bool) b' t' f',
    tshape m = [b'; t'] -> tshape x = [b'; t'; f'] -> wf m -> wf x ->
    switch env (K_expand_dims m) x (K_zeros_like x) =
    Ok (Tensor [b'; t'; f']
          (select (stretch f' (tdata m)) (tdata x)
                  (map (fun _ => dzero) (tdata x))))).
  { intros x m b' t' f' Hm' Hx' Wm' Wx'.
    apply (@switch_trailing_mask A env (K_expand_dims m) x (K_zeros_like x)
             [b'; t'] f' Henv).
    - discriminate.
    - unfold K_expand_dims. cbn [tshape]. now rewrite Hm'.
    - exact Hx'.
    - exact Hx'.
    - now apply wf_expand_dims.
    - exact Wx'.
    - now apply wf_zeros_like. }
  split; [reflexivity |]. split.
  - eexists. eexists.
    split; [unfold K_expand_dims; cbn [tshape]; now rewrite Hm |].
    split; [apply (Hgen inputs mask b t f Hm Hx Wm Wx) |].
    split; [reflexivity |].
    split; [unfold MaskedFlatten.call;
            now rewrite (Hgen inputs mask b t f Hm Hx Wm Wx) |].
    split; [cbn [tshape numel fold_right]; now rewrite Nat.mul_1_r |].
    intros i j k Hi Hj Hk.
    assert (Hr : i * t + j < b * t) by (apply offset_bound; lia).
    assert (Ho : (i * t + j) * f + k < b * t * f)
      by (apply offset_bound; lia).
    assert (Hc : j * f + k < t * f) by (apply offset_bound; lia).
    destruct (@get_in_range _ mask (i * t + j) Wm) as [m Em];
      [rewrite Hm; simpl; lia |].
    destruct (@get_in_range _ inputs ((i * t + j) * f + k) Wx) as [a Ea];
      [rewrite Hx; simpl; lia |].
    exists m, a. unfold get. cbn [tshape tdata numel fold_right].
    rewrite Hm, Hx, ravel2, ravel3 by lia.
    rewrite Nat.mul_1_r, ravel2 by lia.
    replace (i * (t * f) + (j * f + k)) with ((i * t + j) * f + k) by ring.
    rewrite nth_error_select, nth_error_stretch by exact Hk.
    now rewrite Em, Ea, (nth_error_zeros _ _ Ea).
  - intros d Hd. unfold MaskedFlatten.call.
    rewrite (Hgen (Tensor [2; 3; 4] d) mask23 2 3 4) by (try reflexivity; exact Hd).
    cbn [bind tdata mask23].
    do 24 (destruct d as [| ? d]; [discriminate |]).
    destruct d; [| discriminate]. reflexivity.
Qed.

Lemma masked_flatten_call_witness :
  MaskedFlatten.call tf_env (MaskedFlatten.init default_kwargs) input234
    (Some mask23) =
  Ok (Tensor [2; 12]
        [1; 2; 3; 4; 0; 0; 0; 0; 9; 10; 11; 12;
         13; 14; 15; 16; 17; 18; 19; 20; 21; 22; 23; 24]%Z).
Proof.
  exact (proj2 (proj2 (@masked_flatten_call Z _ tf_env
                         (MaskedFlatten.init default_kwargs) input234 mask23
                         2 3 4 (or_introl eq_refl) eq_refl eq_refl eq_refl
                         eq_refl ltac:(lia) ltac:(lia) ltac:(lia)))
           (tdata input234) eq_refl).
Defined.

(** C5: [MaskedFlatten.compute_mask] returns None for every input tensor
    and every mask, present or not. *)
Theorem masked_flatten_compute_mask_none {A : Type} (self : MaskedFlatten.t)
  (inputs : tensor A) (mask : option (tensor bool)) :
  MaskedFlatten.compute_mask self inputs mask = None /\
  (forall m : tensor bool,
     MaskedFlatten.compute_mask self inputs (Some m) = None).
Proof. split; [| intros m]; reflexivity. Qed.

(** C6: for an input shape of rank at least one,
    [get_output_shape_for] returns the input shape followed by the
    embedding dimension, one dimension longer than the input;
    (32, 10) with dimension 50 gives (32, 10, 50). *)
Theorem get_output_shape_for_appends (self : AnyShapeEmbedding.t)
  (input_shape : kshape) :
  1 <= length input_shape ->
  AnyShapeEmbedding.get_output_shape_for self input_shape =
    input_shape ++ [Some (AnyShapeEmbedding.output_dim self)] /\
  length (AnyShapeEmbedding.get_output_shape_for self input_shape) =
    length input_shape + 1 /\
  AnyShapeEmbedding.get_output_shape_for embedding50 [Some 32; Some 10] =
    [Some 32; Some 10; Some 50].
Proof.
  intros _. unfold AnyShapeEmbedding.get_output_shape_for.
  split; [reflexivity |]. split; [| reflexivity].
  now rewrite length_app.
Qed.

Lemma get_output_shape_for_appends_witness :
  1 <= length [Some 32; Some 10] /\
  length (AnyShapeEmbedding.get_output_shape_for embedding50
            [Some 32; Some 10]) = 3.
Proof.
  split; [repeat constructor |].
  exact (proj1 (proj2 (get_output_shape_for_appends embedding50
                         [Some 32; Some 10] (le_S 1 1 (le_n 1))))).
Defined.

Lemma run_supports_masking {A : Type} `{DType A} (env : environment)
  (ops : list (MaskedFlatten.op A)) (self : MaskedFlatten.t) :
  MaskedFlatten.supports_masking (MaskedFlatten.run env self ops) =
  MaskedFlatten.supports_masking self.
Proof.
  unfold MaskedFlatten.run. revert self.
  induction ops as [| o ops IH]; intros self; [reflexivity |].
  cbn [fold_left]. rewrite IH. now destruct o.
Qed.

(** C8: a constructed [MaskedFlatten] has [supports_masking] true, whatever
    the keyword arguments, and the flag is still true after any sequence of
    calls to [call] and [compute_mask]. *)
Theorem masked_flatten_supports_masking (kw : MaskedFlatten.kwargs) :
  MaskedFlatten.supports_masking (MaskedFlatten.init kw) = true /\
  (forall (A : Type) (D : DType A) (env : environment)
          (o : MaskedFlatten.op A) (self : MaskedFlatten.t),
     MaskedFlatten.supports_masking (fst (MaskedFlatten.step env self o)) =
     MaskedFlatten.supports_masking self) /\
  (forall (A : Type) (D : DType A) (env : environment)
          (ops : list (MaskedFlatten.op A)),
     MaskedFlatten.supports_masking
       (MaskedFlatten.run env (MaskedFlatten.init kw) ops) = true).
Proof.
  split; [reflexivity |]. split.
  - intros A D env o self. now destruct o.
  - intros A D env ops. now rewrite run_supports_masking.
Qed.

(** C9: [TimeDistributedRNN.compute_mask] does not look at its input
    tensor: two input tensors, of any element types and shapes, give the
    same output mask for the same input mask, None included. *)
Theorem compute_mask_ignores_input {A B : Type} (self : TimeDistributedRNN.t)
  (x1 : tensor A) (x2 : tensor B) (input_mask : option (tensor bool)) :
  TimeDistributedRNN.compute_mask self x1 input_mask =
  TimeDistributedRNN.compute_mask self x2 input_mask.
Proof. destruct input_mask; reflexivity. Qed.

(** C10: [get_output_shape_for] is defined on every shape tuple, the
    empty one included, for which it returns the one-element shape
    (output_dim,). *)
Theorem get_output_shape_for_total (self : AnyShapeEmbedding.t) :
  (forall input_shape : kshape,
     exists out,
       AnyShapeEmbedding.get_output_shape_for self input_shape = out /\
       out = input_shape ++ [Some (AnyShapeEmbedding.output_dim self)]) /\
  AnyShapeEmbedding.get_output_shape_for self [] =
    [Some (AnyShapeEmbedding.output_dim self)].
Proof.
  split; [| reflexivity].
  intros input_shape. eexists. split; reflexivity.
Qed.

(** * Further properties of the select *)

Lemma length_stretch {A : Type} (f : nat) (l : list A) :
  length (stretch f l) = length l * f.
Proof.
  unfold stretch. induction l as [| a l IH]; simpl; [reflexivity |].
  now rewrite length_app, repeat_length, IH.
Qed.

Lemma length_select {A : Type} (c : list bool) (x y : list A) :
  length c = length x -> length y = length x ->
  length (select c x y) = length x.
Proof.
  intros Hc Hy. unfold select.
  rewrite length_map, !length_combine. lia.
Qed.

Lemma shape_eqb_eq (s1 s2 : shape) : shape_eqb s1 s2 = true -> s1 = s2.
Proof.
  unfold shape_eqb. destruct (list_eq_dec Nat.eq_dec s1 s2);
    [trivial | discriminate].
Qed.

Lemma stretch_0 {A : Type} (l : list A) : stretch 0 l = [].
Proof. unfold stretch. induction l as [| a l IH]; simpl; auto. Qed.

(** Every position of a stretched list comes from one element. *)
Lemma nth_error_stretch_inv {A : Type} (f : nat) (l : list A) (i : nat) (a : A) :
  nth_error (stretch f l) i = Some a ->
  exists r k, i = r * f + k /\ k < f /\ nth_error l r = Some a.
Proof.
  intros E. destruct f as [| f].
  - rewrite stretch_0 in E. destruct i; discriminate.
  - exists (i / S f), (i mod S f).
    assert (Hk : i mod S f < S f) by (apply Nat.mod_upper_bound; discriminate).
    assert (Hi : i = i / S f * S f + i mod S f).
    { rewrite Nat.mul_comm. apply Nat.div_mod_eq. }
    split; [exact Hi |]. split; [exact Hk |].
    rewrite Hi, nth_error_stretch in E by exact Hk. exact E.
Qed.

Lemma Forall_stretch {A : Type} (P : A -> Prop) (f : nat) (l : list A) :
  Forall P l -> Forall P (stretch f l).
Proof.
  unfold stretch. induction 1 as [| a l Ha _ IH]; cbn [flat_map];
    [constructor |].
  apply Forall_app. split; [| exact IH].
  clear -Ha. induction f; simpl; constructor; assumption.
Qed.

Lemma select_all_true {A : Type} (c : list bool) (x y : list A) :
  Forall (fun b => b = true) c ->
  length c = length x -> length y = length x ->
  select c x y = x.
Proof.
  unfold select. intros Hall. revert x y.
  induction Hall as [| b c Hb _ IH]; intros x y Hc Hy.
  - destruct x; [reflexivity | discriminate].
  - destruct x as [| u x]; [discriminate |].
    destruct y as [| v y]; [discriminate |].
    subst b. cbn. f_equal. apply IH; simpl in *; lia.
Qed.

Lemma select_all_false {A : Type} (c : list bool) (x y : list A) :
  Forall (fun b => b = false) c ->
  length c = length x -> length y = length x ->
  select c x y = y.
Proof.
  unfold select. intros Hall. revert x y.
  induction Hall as [| b c Hb _ IH]; intros x y Hc Hy.
  - destruct x; [| discriminate]. destruct y; [reflexivity | discriminate].
  - destruct x as [| u x]; [discriminate |].
    destruct y as [| v y]; [discriminate |].
    subst b. cbn. f_equal. apply IH; simpl in *; lia.
Qed.

Lemma select_idem {A : Type} (c : list bool) (x y : list A) :
  select c (select c x y) y = select c x y.
Proof.
  apply nth_error_ext. intros i. rewrite !nth_error_select.
  destruct (nth_error c i) as [b |]; [| reflexivity].
  destruct (nth_error x i) as [u |]; [| reflexivity].
  destruct (nth_error y i) as [v |]; [| reflexivity].
  now destruct b.
Qed.

(** The selected list depends on the first branch only where the
    condition is true. *)
Lemma select_agree {A : Type} (c : list bool) (x1 x2 y : list A) :
  length x1 = length x2 ->
  (forall i, nth_error c i = Some true -> nth_error x1 i = nth_error x2 i) ->
  select c x1 y = select c x2 y.
Proof.
  intros Hlen Hagree. apply nth_error_ext. intros i.
  rewrite !nth_error_select.
  destruct (nth_error c i) as [[|] |] eqn:Ec; [| | reflexivity].
  - now rewrite (Hagree i Ec).
  - destruct (nth_error x1 i) as [u1 |] eqn:E1;
      destruct (nth_error x2 i) as [u2 |] eqn:E2; try reflexivity.
    + apply nth_error_None in E2.
      assert (i < length x1) by (apply nth_error_Some; congruence). lia.
    + apply nth_error_None in E1.
      assert (i < length x2) by (apply nth_error_Some; congruence). lia.
Qed.

Lemma wf_select_stretch {A : Type} (s : shape) (f : nat) (c : list bool)
  (x y : list A) :
  length c = numel s -> length x = numel (s ++ [f]) ->
  length y = numel (s ++ [f]) ->
  wf (Tensor (s ++ [f]) (select (stretch f c) x y)).
Proof.
  intros Hc Hx Hy. unfold wf. cbn [tshape tdata].
  rewrite length_select; [exact Hx | | congruence].
  rewrite length_stretch, Hc, Hx, numel_snoc. reflexivity.
Qed.

Lemma ravel1 (b i : nat) : i < b -> ravel [b] [i] = Some i.
Proof.
  intros Hi. cbn [ravel]. destruct (Nat.ltb_spec i b); [| lia].
  f_equal. simpl. lia.
Qed.

(** X1: on the tensorflow backend [switch] indexes the shapes of cond and
    of then_tensor with [-1] before anything else, so a rank-0 cond or a
    rank-0 then_tensor raises IndexError whatever the other arguments. *)
Theorem switch_tensorflow_rank0_raises {A : Type} (env : environment)
  (cond : tensor bool) (then_tensor else_tensor : tensor A) :
  K_backend env = "tensorflow"%string ->
  tshape cond = [] \/ tshape then_tensor = [] ->
  switch env cond then_tensor else_tensor = Raise IndexError.
Proof.
  intros Hb Hs. rewrite switch_tensorflow_branch by exact Hb.
  destruct Hs as [Hc | Hx].
  - now rewrite Hc.
  - rewrite Hx. destruct (last_dim (tshape cond)) as [c | e] eqn:E.
    + reflexivity.
    + unfold last_dim in E. destruct (rev (tshape cond)); now inversion E.
Qed.

Lemma switch_tensorflow_rank0_raises_witness :
  switch tf_env cond2 scalar_then scalar_else = Raise IndexError.
Proof.
  exact (@switch_tensorflow_rank0_raises Z tf_env cond2 scalar_then
           scalar_else eq_refl (or_intror eq_refl)).
Defined.

Lemma switch_expanded_mask {A : Type} (env : environment)
  (mask : tensor bool) (x y : tensor A) (s : shape) (f : nat) :
  K_backend env = "tensorflow"%string \/ import_module env "theano" = Ok tt ->
  s <> [] ->
  tshape mask = s -> tshape x = s ++ [f] -> tshape y = s ++ [f] ->
  wf mask -> wf x -> wf y ->
  switch env (K_expand_dims mask) x y =
  Ok (Tensor (s ++ [f]) (select (stretch f (tdata mask)) (tdata x) (tdata y))).
Proof.
  intros Henv Hs Hm Hx Hy Wm Wx Wy.
  apply (@switch_trailing_mask A env (K_expand_dims mask) x y s f);
    try assumption.
  - unfold K_expand_dims. cbn [tshape]. now rewrite Hm.
  - now apply wf_expand_dims.
Qed.

(** X2: for a mask of shape s, of rank at least one, given the trailing
    axis of [K.expand_dims], and then/else tensors of shape s + (f,), the
    product with ones on the tensorflow branch and theano's native
    broadcast give the same tensor: element p * f + k is taken from
    then_tensor when the p-th mask value is true and from else_tensor
    otherwise. *)
Theorem switch_trailing_backends_agree {A : Type}
  (env_tf env_th : environment)
  (mask : tensor bool) (then_tensor else_tensor : tensor A)
  (s : shape) (f : nat) :
  K_backend env_tf = "tensorflow"%string ->
  K_backend env_th = "theano"%string ->
  s <> [] ->
  tshape mask = s ->
  tshape then_tensor = s ++ [f] ->
  tshape else_tensor = s ++ [f] ->
  wf mask -> wf then_tensor -> wf else_tensor ->
  switch env_tf (K_expand_dims mask) then_tensor else_tensor =
    switch env_th (K_expand_dims mask) then_tensor else_tensor /\
  exists r,
    switch env_tf (K_expand_dims mask) then_tensor else_tensor = Ok r /\
    tshape r = s ++ [f] /\ wf r /\
    forall p k, p < numel s -> k < f ->
      exists c u v,
        nth_error (tdata mask) p = Some c /\
        nth_error (tdata then_tensor) (p * f + k) = Some u /\
        nth_error (tdata else_tensor) (p * f + k) = Some v /\
        nth_error (tdata r) (p * f + k) = Some (if c then u else v).
Proof.
  intros Htf Hth Hs Hm Hx Hy Wm Wx Wy.
  assert (Etf := @switch_expanded_mask A env_tf mask then_tensor else_tensor
                   s f (or_introl Htf) Hs Hm Hx Hy Wm Wx Wy).
  assert (Ith : import_module env_th "theano" = Ok tt).
  { unfold import_module. unfold K_backend in Hth. now rewrite Hth. }
  assert (Eth := @switch_expanded_mask A env_th mask then_tensor else_tensor
                   s f (or_intror Ith) Hs Hm Hx Hy Wm Wx Wy).
  split; [congruence |].
  eexists. split; [exact Etf |]. split; [reflexivity |].
  split.
  - apply wf_select_stretch; unfold wf in *; congruence.
  - intros p k Hp Hk.
    assert (Ho : p * f + k < numel s * f) by (apply offset_bound; lia).
    destruct (@get_in_range _ mask p Wm) as [c Ec];
      [now rewrite Hm |].
    destruct (@get_in_range _ then_tensor (p * f + k) Wx) as [u Eu];
      [rewrite Hx, numel_snoc; exact Ho |].
    destruct (@get_in_range _ else_tensor (p * f + k) Wy) as [v Ev];
      [rewrite Hy, numel_snoc; exact Ho |].
    exists c, u, v. cbn [tdata].
    rewrite nth_error_select, nth_error_stretch by exact Hk.
    now rewrite Ec, Eu, Ev.
Qed.

Lemma switch_trailing_backends_agree_witness :
  switch tf_env (K_expand_dims mask12) then122 else122 =
  switch theano_env (K_expand_dims mask12) then122 else122.
Proof.
  exact (proj1 (@switch_trailing_backends_agree Z tf_env theano_env mask12
                  then122 else122 [1; 2] 2 eq_refl eq_refl
                  ltac:(discriminate)
                  eq_refl eq_refl eq_refl eq_refl eq_refl eq_refl)).
Defined.

Lemma tensor_eta {A : Type} (x : tensor A) (s : shape) :
  tshape x = s -> Tensor s (tdata x) = x.
Proof. intros <-. now destruct x. Qed.

(** X3: on either branch, a mask that is true everywhere, given the
    trailing axis of [K.expand_dims], makes [switch] return then_tensor
    itself, and a mask that is false everywhere makes it return
    else_tensor. *)
Theorem switch_constant_mask {A : Type} (env : environment)
  (mask : tensor bool) (then_tensor else_tensor : tensor A)
  (s : shape) (f : nat) :
  K_backend env = "tensorflow"%string \/ import_module env "theano" = Ok tt ->
  s <> [] ->
  tshape mask = s ->
  tshape then_tensor = s ++ [f] ->
  tshape else_tensor = s ++ [f] ->
  wf mask -> wf then_tensor -> wf else_tensor ->
  (Forall (fun b => b = true) (tdata mask) ->
   switch env (K_expand_dims mask) then_tensor else_tensor = Ok then_tensor) /\
  (Forall (fun b => b = false) (tdata mask) ->
   switch env (K_expand_dims mask) then_tensor else_tensor = Ok else_tensor).
Proof.
  intros Henv Hs Hm Hx Hy Wm Wx Wy.
  rewrite (@switch_expanded_mask A env mask then_tensor else_tensor s f)
    by assumption.
  assert (Lc : length (stretch f (tdata mask)) = length (tdata then_tensor)).
  { unfold wf in *. rewrite length_stretch, Wm, Wx, Hm, Hx, numel_snoc. lia. }
  assert (Ly : length (tdata else_tensor) = length (tdata then_tensor))
    by (unfold wf in *; congruence).
  split; intros Hall.
  - rewrite select_all_true; [| now apply Forall_stretch | exact Lc | exact Ly].
    now rewrite tensor_eta.
  - rewrite select_all_false; [| now apply Forall_stretch | exact Lc | exact Ly].
    now rewrite tensor_eta.
Qed.

Lemma switch_constant_mask_witness :
  switch tf_env (K_expand_dims keep12) then122 else122 = Ok then122 /\
  switch theano_env (K_expand_dims drop12) then122 else122 = Ok else122.
Proof.
  split.
  - apply (proj1 (@switch_constant_mask Z tf_env keep12 then122 else122
                    [1; 2] 2 (or_introl eq_refl) ltac:(discriminate)
                    eq_refl eq_refl eq_refl eq_refl eq_refl eq_refl)).
    repeat constructor.
  - apply (proj2 (@switch_constant_mask Z theano_env drop12 then122 else122
                    [1; 2] 2 (or_intror eq_refl) ltac:(discriminate)
                    eq_refl eq_refl eq_refl eq_refl eq_refl eq_refl)).
    repeat constructor.
Defined.

Lemma tf_where_ok_shape {A : Type} (c : tensor bool) (x y r : tensor A) :
  tf_where c x y = Ok r -> tshape r = tshape x /\ tshape y = tshape x.
Proof.
  unfold tf_where. intros E.
  destruct (shape_eqb (tshape x) (tshape y)) eqn:Exy; [| discriminate].
  apply shape_eqb_eq in Exy.
  assert (Hr : tshape r = tshape x).
  { destruct (shape_eqb (tshape c) (tshape x)).
    - now inversion E.
    - destruct (tshape c) as [| n [| ? ?]]; try discriminate.
      destruct (tshape x) as [| n' rest]; [discriminate |].
      destruct (n =? n'); [| discriminate]. now inversion E. }
  split; [exact Hr | now symmetry].
Qed.

(** X4: whenever [switch] returns a tensor on the tensorflow backend, the
    result has the shape of then_tensor and else_tensor has that shape too:
    the branch never broadcasts then_tensor or else_tensor. *)
Theorem switch_tensorflow_result_shape {A : Type} (env : environment)
  (cond : tensor bool) (then_tensor else_tensor r : tensor A) :
  K_backend env = "tensorflow"%string ->
  switch env cond then_tensor else_tensor = Ok r ->
  tshape r = tshape then_tensor /\
  tshape else_tensor = tshape then_tensor /\
  1 <= rank cond /\ 1 <= rank then_tensor.
Proof.
  intros Hb E. rewrite switch_tensorflow_branch in E by exact Hb.
  assert (Hrank : forall s : shape, (exists d, last_dim s = Ok d) ->
                                    1 <= length s).
  { intros s [d Hd]. unfold last_dim in Hd.
    destruct s as [| a s]; [discriminate | simpl; lia]. }
  destruct (last_dim (tshape cond)) as [c |] eqn:Ec; [| discriminate].
  destruct (last_dim (tshape then_tensor)) as [i |] eqn:Ei; [| discriminate].
  cbn [bind] in E.
  assert (Hsh : tshape r = tshape then_tensor /\
                tshape else_tensor = tshape then_tensor).
  { destruct (negb (c =? i) && (c =? 1)).
    - destruct (K_dot (tf_cast_float32 (BoolT cond)) (tf_ones [1; i]));
        [| discriminate].
      cbn [bind] in E. now apply tf_where_ok_shape in E.
    - cbn [bind] in E. now apply tf_where_ok_shape in E. }
  destruct Hsh as [H1 H2]. repeat split; try assumption.
  - apply Hrank. now exists c.
  - apply Hrank. now exists i.
Qed.

Lemma switch_tensorflow_result_shape_witness :
  tshape (Tensor [2] [1; 7]%Z) = tshape then2 /\ tshape else2 = tshape then2.
Proof.
  destruct (@switch_tensorflow_result_shape Z tf_env cond2 then2 else2
              (Tensor [2] [1; 7]%Z) eq_refl eq_refl) as [H1 [H2 _]].
  split; [exact H1 | exact H2].
Defined.

(** X5: selecting twice with the same mask changes nothing: for a mask
    given the trailing axis of [K.expand_dims], with the result of
    [switch] put back as then_tensor, [switch] returns that result
    again. *)
Theorem switch_idempotent {A : Type} (env : environment)
  (mask : tensor bool) (then_tensor else_tensor : tensor A)
  (s : shape) (f : nat) :
  K_backend env = "tensorflow"%string \/ import_module env "theano" = Ok tt ->
  s <> [] ->
  tshape mask = s ->
  tshape then_tensor = s ++ [f] ->
  tshape else_tensor = s ++ [f] ->
  wf mask -> wf then_tensor -> wf else_tensor ->
  exists r,
    switch env (K_expand_dims mask) then_tensor else_tensor = Ok r /\
    switch env (K_expand_dims mask) r else_tensor = Ok r.
Proof.
  intros Henv Hs Hm Hx Hy Wm Wx Wy.
  eexists. split.
  - apply (@switch_expanded_mask A env mask then_tensor else_tensor s f);
      assumption.
  - rewrite (@switch_expanded_mask A env mask _ else_tensor s f);
      try assumption; try reflexivity.
    + cbn [tdata]. now rewrite select_idem.
    + apply wf_select_stretch; unfold wf in *; congruence.
Qed.

Lemma switch_idempotent_witness :
  exists r, switch tf_env (K_expand_dims mask12) then122 else122 = Ok r /\
            switch tf_env (K_expand_dims mask12) r else122 = Ok r.
Proof.
  exact (@switch_idempotent Z tf_env mask12 then122 else122 [1; 2] 2
           (or_introl eq_refl) ltac:(discriminate)
           eq_refl eq_refl eq_refl eq_refl eq_refl eq_refl).
Defined.

(** * Further properties of the masked flatten *)

Lemma call_masked {A : Type} `{DType A} (env : environment)
  (self : MaskedFlatten.t) (inputs : tensor A) (mask : tensor bool)
  (s : shape) (f : nat) :
  K_backend env = "tensorflow"%string \/ import_module env "theano" = Ok tt ->
  s <> [] ->
  tshape mask = s -> tshape inputs = s ++ [f] ->
  wf mask -> wf inputs ->
  MaskedFlatten.call env self inputs (Some mask) =
  MaskedFlatten.Flatten_call
    (Tensor (s ++ [f])
       (select (stretch f (tdata mask)) (tdata inputs)
          (map (fun _ => dzero) (tdata inputs)))).
Proof.
  intros Henv Hs Hm Hx Wm Wx. unfold MaskedFlatten.call.
  rewrite (@switch_trailing_mask A env (K_expand_dims mask) inputs
             (K_zeros_like inputs) s f); try assumption.
  - reflexivity.
  - unfold K_expand_dims. cbn [tshape]. now rewrite Hm.
  - now apply wf_expand_dims.
  - now apply wf_zeros_like.
Qed.

(** X6: for a mask of any shape (b, ...) of rank at least one over an
    input of that shape followed by f features, both with elements (no
    dimension is zero), [call] returns a tensor of shape (b, rest * f)
    with as many elements as the input, in the input's order: element
    p * f + k is the input's where the p-th mask value is true and zero
    where it is false. *)
Theorem masked_flatten_call_any_rank {A : Type} `{DType A}
  (env : environment) (self : MaskedFlatten.t)
  (inputs : tensor A) (mask : tensor bool) (b : nat) (s : shape) (f : nat) :
  K_backend env = "tensorflow"%string \/ import_module env "theano" = Ok tt ->
  tshape mask = b :: s ->
  tshape inputs = (b :: s) ++ [f] ->
  wf mask -> wf inputs ->
  0 < b -> 0 < numel s -> 0 < f ->
  exists out,
    MaskedFlatten.call env self inputs (Some mask) = Ok out /\
    tshape out = [b; numel s * f] /\
    wf out /\
    length (tdata out) = length (tdata inputs) /\
    forall p k, p < b * numel s -> k < f ->
      exists (m : bool) (a : A),
        nth_error (tdata mask) p = Some m /\
        nth_error (tdata inputs) (p * f + k) = Some a /\
        nth_error (tdata out) (p * f + k) = Some (if m then a else dzero).
Proof.
  intros Henv Hm Hx Wm Wx _ _ _.
  rewrite (@call_masked A _ env self inputs mask (b :: s) f)
    by (assumption || discriminate).
  assert (Lm : length (tdata mask) = b * numel s)
    by (unfold wf in Wm; now rewrite Wm, Hm).
  assert (Lx : length (tdata inputs) = b * (numel s * f)).
  { unfold wf in Wx. rewrite Wx, Hx, numel_snoc. simpl. lia. }
  assert (Lo : length (select (stretch f (tdata mask)) (tdata inputs)
                         (map (fun _ => dzero) (tdata inputs))) =
               length (tdata inputs)).
  { apply length_select; [| apply length_map].
    rewrite length_stretch, Lm, Lx. lia. }
  eexists. split; [reflexivity |]. cbn [tshape tdata].
  split; [now rewrite numel_snoc |].
  split; [unfold wf; cbn [tshape tdata]; rewrite Lo, Lx, numel_snoc;
          simpl; lia |].
  split; [exact Lo |].
  intros p k Hp Hk.
  assert (Ho : p * f + k < b * numel s * f) by (apply offset_bound; lia).
  destruct (@get_in_range _ mask p Wm) as [m Em];
    [rewrite Hm; exact Hp |].
  destruct (@get_in_range _ inputs (p * f + k) Wx) as [a Ea];
    [rewrite Hx, numel_snoc; exact Ho |].
  exists m, a.
  rewrite nth_error_select, nth_error_stretch by exact Hk.
  now rewrite Em, Ea, (nth_error_zeros _ _ Ea).
Qed.

Lemma masked_flatten_call_any_rank_witness :
  exists out,
    MaskedFlatten.call theano_env (MaskedFlatten.init default_kwargs)
      input23 (Some cond2) = Ok out /\
    tshape out = [2; 1 * 3].
Proof.
  destruct (@masked_flatten_call_any_rank Z _ theano_env
              (MaskedFlatten.init default_kwargs) input23 cond2 2 [] 3
              (or_intror eq_refl) eq_refl eq_refl eq_refl eq_refl
              ltac:(lia) (le_n 1) ltac:(lia))
    as [out [Hc [Hs _]]].
  exists out. split; [exact Hc | exact Hs].
Defined.

(** X7: what the input holds at masked-out positions never reaches the
    output: two inputs of the same shape that agree wherever the mask is
    true give the same result. *)
Theorem masked_flatten_hides_masked_values {A : Type} `{DType A}
  (env : environment) (self : MaskedFlatten.t)
  (inputs1 inputs2 : tensor A) (mask : tensor bool) (s : shape) (f : nat) :
  K_backend env = "tensorflow"%string \/ import_module env "theano" = Ok tt ->
  s <> [] ->
  tshape mask = s ->
  tshape inputs1 = s ++ [f] -> tshape inputs2 = s ++ [f] ->
  wf mask -> wf inputs1 -> wf inputs2 ->
  (forall p k, k < f -> nth_error (tdata mask) p = Some true ->
     nth_error (tdata inputs1) (p * f + k) =
     nth_error (tdata inputs2) (p * f + k)) ->
  MaskedFlatten.call env self inputs1 (Some mask) =
  MaskedFlatten.call env self inputs2 (Some mask).
Proof.
  intros Henv Hs Hm H1 H2 Wm W1 W2 Hagree.
  rewrite (@call_masked A _ env self inputs1 mask s f) by assumption.
  rewrite (@call_masked A _ env self inputs2 mask s f) by assumption.
  assert (Hlen : length (tdata inputs1) = length (tdata inputs2))
    by (unfold wf in *; congruence).
  do 2 f_equal. rewrite !map_const, Hlen.
  apply select_agree; [exact Hlen |].
  intros i Ei. apply nth_error_stretch_inv in Ei.
  destruct Ei as [p [k [-> [Hk Ep]]]]. now apply Hagree.
Qed.

Lemma masked_flatten_hides_masked_values_witness :
  MaskedFlatten.call tf_env (MaskedFlatten.init default_kwargs)
    input23 (Some cond2) =
  MaskedFlatten.call tf_env (MaskedFlatten.init default_kwargs)
    input23' (Some cond2).
Proof.
  apply (@masked_flatten_hides_masked_values Z _ tf_env
           (MaskedFlatten.init default_kwargs) input23 input23' cond2 [2] 3
           (or_introl eq_refl) ltac:(discriminate)
           eq_refl eq_refl eq_refl eq_refl eq_refl eq_refl).
  intros p k Hk Hp.
  destruct p as [| [| p]]; [| discriminate | destruct p; discriminate].
  destruct k as [| [| [| k]]]; try reflexivity. lia.
Defined.

(** X8: a mask that is true everywhere is the same as no mask, and a mask
    that is false everywhere gives the flattened zeros. *)
Theorem masked_flatten_constant_mask {A : Type} `{DType A}
  (env : environment) (self : MaskedFlatten.t)
  (inputs : tensor A) (mask : tensor bool) (s : shape) (f : nat) :
  K_backend env = "tensorflow"%string \/ import_module env "theano" = Ok tt ->
  s <> [] ->
  tshape mask = s -> tshape inputs = s ++ [f] ->
  wf mask -> wf inputs ->
  (Forall (fun b => b = true) (tdata mask) ->
   MaskedFlatten.call env self inputs (Some mask) =
   MaskedFlatten.call env self inputs None) /\
  (Forall (fun b => b = false) (tdata mask) ->
   MaskedFlatten.call env self inputs (Some mask) =
   MaskedFlatten.Flatten_call (K_zeros_like inputs)).
Proof.
  intros Henv Hs Hm Hx Wm Wx.
  rewrite (@call_masked A _ env self inputs mask s f) by assumption.
  assert (Lc : length (stretch f (tdata mask)) = length (tdata inputs)).
  { unfold wf in *. rewrite length_stretch, Wm, Wx, Hm, Hx, numel_snoc. lia. }
  split; intros Hall.
  - rewrite select_all_true;
      [| now apply Forall_stretch | exact Lc | apply length_map].
    now rewrite tensor_eta.
  - rewrite select_all_false;
      [| now apply Forall_stretch | exact Lc | apply length_map].
    unfold K_zeros_like. now rewrite Hx.
Qed.

Lemma masked_flatten_constant_mask_witness :
  MaskedFlatten.call tf_env (MaskedFlatten.init default_kwargs)
    input23 (Some keep2) =
  MaskedFlatten.call tf_env (MaskedFlatten.init default_kwargs) input23 None /\
  MaskedFlatten.call tf_env (MaskedFlatten.init default_kwargs)
    input23 (Some drop2) =
  MaskedFlatten.Flatten_call (K_zeros_like input23).
Proof.
  split.
  - apply (proj1 (@masked_flatten_constant_mask Z _ tf_env
                    (MaskedFlatten.init default_kwargs) input23 keep2 [2] 3
                    (or_introl eq_refl) ltac:(discriminate)
                    eq_refl eq_refl eq_refl eq_refl)).
    repeat constructor.
  - apply (proj2 (@masked_flatten_constant_mask Z _ tf_env
                    (MaskedFlatten.init default_kwargs) input23 drop2 [2] 3
                    (or_introl eq_refl) ltac:(discriminate)
                    eq_refl eq_refl eq_refl eq_refl)).
    repeat constructor.
Defined.

(** X9: the backend is only consulted when a mask is present: with a
    backend other than tensorflow and no importable theano, [call] with a
    mask raises ImportError for every input and mask, while [call] without
    a mask still flattens. *)
Theorem masked_flatten_call_import_error {A : Type} `{DType A}
  (env : environment) (self : MaskedFlatten.t)
  (inputs : tensor A) (mask : tensor bool) :
  K_backend env <> "tensorflow"%string ->
  import_module env "theano" = Raise ImportError ->
  MaskedFlatten.call env self inputs (Some mask) = Raise ImportError /\
  MaskedFlatten.call env self inputs None =
    MaskedFlatten.Flatten_call inputs.
Proof.
  intros Hb Hi. split; [| reflexivity].
  unfold MaskedFlatten.call, switch.
  destruct (String.eqb_spec (K_backend env) "tensorflow"); [contradiction |].
  now rewrite Hi.
Qed.

Lemma masked_flatten_call_import_error_witness :
  MaskedFlatten.call cntk_env (MaskedFlatten.init default_kwargs)
    input23 (Some cond2) = Raise ImportError.
Proof.
  exact (proj1 (@masked_flatten_call_import_error Z _ cntk_env
                  (MaskedFlatten.init default_kwargs) input23 cond2
                  ltac:(discriminate) eq_refl)).
Defined.

(** * Further properties of the mask reduction and of the output shape *)

Lemma nth_error_any_rows (k n p : nat) (l : list bool) :
  p < n ->
  nth_error
    (map (fun i => existsb (fun b => b) (chunk k i l)) (seq 0 n)) p =
  Some (existsb (fun b => b) (chunk k p l)).
Proof.
  intros Hp. rewrite nth_error_map, nth_error_seq.
  destruct (Nat.ltb_spec p n); [reflexivity | lia].
Qed.

(** X10: for a mask of any rank at least one, of shape s + (k,), the
    output mask has shape s, holds one value per block of k input values,
    and its p-th value is true exactly when some value of the p-th block
    is true. *)
Theorem compute_mask_any_rank {A : Type} (self : TimeDistributedRNN.t)
  (x : tensor A) (input_mask : tensor bool) (s : shape) (k : nat) :
  tshape input_mask = s ++ [k] ->
  exists r,
    TimeDistributedRNN.compute_mask self x (Some input_mask) = Ok (Some r) /\
    tshape r = s /\
    wf r /\
    forall p, p < numel s ->
      exists v,
        nth_error (tdata r) p = Some v /\
        (v = true <->
         exists l, l < k /\
                   nth_error (tdata input_mask) (p * k + l) = Some true).
Proof.
  intros Hm. unfold TimeDistributedRNN.compute_mask.
  rewrite (@K_any_snoc input_mask s k Hm). cbn [bind].
  eexists. split; [reflexivity |]. split; [reflexivity |]. split.
  - unfold wf. cbn [tshape tdata]. now rewrite length_map, length_seq.
  - intros p Hp. eexists. cbn [tdata].
    split; [now apply nth_error_any_rows |]. apply existsb_chunk.
Qed.

Lemma compute_mask_any_rank_witness :
  exists r,
    TimeDistributedRNN.compute_mask lstm_wrapper input23 (Some cond2)
      = Ok (Some r) /\
    tshape r = [].
Proof.
  destruct (@compute_mask_any_rank Z lstm_wrapper input23 cond2 [] 2 eq_refl)
    as [r [Hr [Hs _]]].
  exists r. split; [exact Hr | exact Hs].
Defined.

(** X11: reducing twice reduces the last two axes: for a mask of shape
    (b, t, k), the mask computed from the computed mask has shape (b,) and
    is true at i exactly when some input_mask[i, j, l] is true. *)
Theorem compute_mask_twice {A B : Type} (self1 self2 : TimeDistributedRNN.t)
  (x1 : tensor A) (x2 : tensor B) (input_mask : tensor bool) (b t k : nat) :
  tshape input_mask = [b; t; k] ->
  exists r1 r2,
    TimeDistributedRNN.compute_mask self1 x1 (Some input_mask)
      = Ok (Some r1) /\
    TimeDistributedRNN.compute_mask self2 x2 (Some r1) = Ok (Some r2) /\
    tshape r2 = [b] /\
    forall i, i < b ->
      exists v,
        get r2 [i] = Some v /\
        (v = true <->
         exists j l, j < t /\ l < k /\
                     get input_mask [i; j; l] = Some true).
Proof.
  intros Hm. unfold TimeDistributedRNN.compute_mask.
  rewrite (@K_any_snoc input_mask [b; t] k Hm). cbn [bind].
  eexists. eexists. split; [reflexivity |].
  rewrite K_any_snoc with (s := [b]) (k := t) by reflexivity.
  cbn [bind tdata].
  split; [reflexivity |]. split; [reflexivity |].
  intros i Hi. eexists. unfold get at 1. cbn [tshape tdata].
  rewrite ravel1 by exact Hi.
  split; [apply nth_error_any_rows; simpl; lia |].
  rewrite existsb_chunk. split.
  - intros [j [Hj E]].
    rewrite nth_error_any_rows in E
      by (replace (numel [b; t]) with (b * t) by (simpl; lia);
          apply offset_bound; lia).
    injection E as E. apply existsb_chunk in E. destruct E as [l [Hl E]].
    exists j, l. split; [exact Hj |]. split; [exact Hl |].
    unfold get. now rewrite Hm, ravel3 by lia.
  - intros [j [l [Hj [Hl E]]]]. exists j. split; [exact Hj |].
    rewrite nth_error_any_rows
      by (replace (numel [b; t]) with (b * t) by (simpl; lia);
          apply offset_bound; lia).
    f_equal. apply existsb_chunk. exists l. split; [exact Hl |].
    unfold get in E. now rewrite Hm, ravel3 in E by lia.
Qed.

Lemma compute_mask_twice_witness :
  exists r1 r2,
    TimeDistributedRNN.compute_mask lstm_wrapper input23 (Some mask122)
      = Ok (Some r1) /\
    TimeDistributedRNN.compute_mask lstm_wrapper input23 (Some r1)
      = Ok (Some r2) /\
    tshape r2 = [1].
Proof.
  destruct (@compute_mask_twice Z Z lstm_wrapper lstm_wrapper input23 input23
              mask122 1 2 2 eq_refl) as [r1 [r2 [H1 [H2 [Hs _]]]]].
  exists r1, r2. repeat split; assumption.
Defined.

(** X12: a mask whose last axis is empty has no valid element anywhere:
    the output mask, of shape s, is false at every position. *)
Theorem compute_mask_empty_axis {A : Type} (self : TimeDistributedRNN.t)
  (x : tensor A) (input_mask : tensor bool) (s : shape) :
  tshape input_mask = s ++ [0] ->
  TimeDistributedRNN.compute_mask self x (Some input_mask) =
  Ok (Some (Tensor s (repeat false (numel s)))).
Proof.
  intros Hm. unfold TimeDistributedRNN.compute_mask.
  rewrite (@K_any_snoc input_mask s 0 Hm). cbn [bind].
  do 3 f_equal.
  rewrite (map_ext _ (fun _ => false)) by reflexivity.
  now rewrite map_const, length_seq.
Qed.

Lemma compute_mask_empty_axis_witness :
  TimeDistributedRNN.compute_mask lstm_wrapper input23 (Some mask20) =
  Ok (Some (Tensor [2] [false; false])).
Proof.
  exact (@compute_mask_empty_axis Z lstm_wrapper input23 mask20 [2] eq_refl).
Defined.

(** X13: the output shape determines the input shape and the embedding
    dimension: two layers that compute the same output shape were given the
    same input shape, unknown dimensions included, and have the same
    output_dim. *)
Theorem get_output_shape_for_injective (self1 self2 : AnyShapeEmbedding.t)
  (shape1 shape2 : kshape) :
  AnyShapeEmbedding.get_output_shape_for self1 shape1 =
  AnyShapeEmbedding.get_output_shape_for self2 shape2 ->
  shape1 = shape2 /\
  AnyShapeEmbedding.output_dim self1 = AnyShapeEmbedding.output_dim self2.
Proof.
  unfold AnyShapeEmbedding.get_output_shape_for. intros E.
  apply app_inj_tail in E. destruct E as [E1 E2].
  split; [exact E1 | now inversion E2].
Qed.

Lemma get_output_shape_for_injective_witness :
  [Some 32; None] = [Some 32; None] /\
  AnyShapeEmbedding.output_dim embedding50 =
  AnyShapeEmbedding.output_dim embedding50.
Proof.
  exact (@get_output_shape_for_injective embedding50 embedding50
           [Some 32; None] [Some 32; None] eq_refl).
Defined.
